(** * rosemary-renderer: [submatrix.py]

    A shallow embedding of the script [src/submatrix.py] and the proofs of
    the properties its specification states.

    The script keeps two list objects in module scope ([nums] and
    [result]), allocates one more list per call of [submatrix], and only
    ever mutates lists through [append].  The embedding therefore keeps a
    heap of list objects addressed by references, the dictionary of module
    globals, and what was printed; a Python statement becomes a computation
    in a state-and-exception monad that also records every state it
    passes through. *)

From Stdlib Require Import ZArith Lia.
From stdpp Require Import gmap strings list fin_maps sorting.

(** ** Values, heap and program state *)

Definition loc := nat.

(** The values the script manipulates: integers (immutable) and
    references to list objects (mutable, shared by reference). *)
Inductive value :=
  | VInt (n : Z)
  | VList (l : loc).

#[global] Instance value_eq_dec : EqDecision value.
Proof. solve_decision. Defined.

#[global] Instance value_inhabited : Inhabited value := populate (VInt 0).

(** What [print] shows of a value: the nested structure with every
    reference followed (the text [[a, b], [c]] without its spelling). *)
#[warnings="-register-all"]
Inductive pytree :=
  | TInt (n : Z)
  | TList (ts : list pytree).

Record state := State {
  heap : gmap loc (list value);
  globals : gmap string value;
  stdout : list pytree
}.

Definition set_heap (h : gmap loc (list value)) (s : state) : state :=
  State h (globals s) (stdout s).

Definition set_globals (g : gmap string value) (s : state) : state :=
  State (heap s) g (stdout s).

Definition set_stdout (o : list pytree) (s : state) : state :=
  State (heap s) (globals s) o.

(** The interpreter state before the first statement of the script. *)
Definition initial : state := State ∅ ∅ [].

Inductive exn :=
  | NameError (x : string)
  | TypeError
  | AttributeError
  | ZeroDivisionError.

(** How a computation ends: normally with a value and a state, with an
    exception, or cut off because the model's fuel ran out. *)
Inductive outcome (A : Type) :=
  | Ok (a : A) (s : state)
  | Raise (e : exn)
  | OutOfFuel.

Arguments Ok {A} a s.
Arguments Raise {A} e.
Arguments OutOfFuel {A}.

(** ** The monad

    A computation maps the state it starts in to the list of states it
    produced, one per mutation and in order, and its outcome. *)
Definition M (A : Type) : Type := state → list state * outcome A.

Definition ret {A} (a : A) : M A := λ s, ([], Ok a s).

Definition bind {A B} (m : M A) (f : A → M B) : M B := λ s,
  match m s with
  | (tr, Ok a s') => let '(tr', o) := f a s' in (tr ++ tr', o)
  | (tr, Raise e) => (tr, Raise e)
  | (tr, OutOfFuel) => (tr, OutOfFuel)
  end.

Definition raise {A} (e : exn) : M A := λ _, ([], Raise e).

Definition out_of_fuel {A} : M A := λ _, ([], OutOfFuel).

Definition get : M state := λ s, ([], Ok s s).

(** Every mutation goes through [put], which records the new state. *)
Definition put (s' : state) : M unit := λ _, ([s'], Ok tt s').

#[global] Instance M_ret : MRet M := @ret.
#[global] Instance M_bind : MBind M := λ A B f m, bind m f.

Definition trace_of {A} (r : list state * outcome A) : list state := r.1.
Definition outcome_of {A} (r : list state * outcome A) : outcome A := r.2.

(** ** Python primitives *)

(** A list display or [list(...)]: a new list object at an unused address. *)
Definition new_list (vs : list value) : M value :=
  s ← get;
  let l := fresh (dom (heap s)) in
  put (set_heap (<[l := vs]> (heap s)) s);;
  ret (VList l).

(** Reading a module-level name. *)
Definition load_global (x : string) : M value :=
  s ← get;
  match globals s !! x with
  | Some v => ret v
  | None => raise (NameError x)
  end.

(** Binding a module-level name. *)
Definition store_global (x : string) (v : value) : M unit :=
  s ← get;
  put (set_globals (<[x := v]> (globals s)) s).

(** [r.append(v)]: the list object [r] refers to grows in place. *)
Definition list_append (r : value) (v : value) : M unit :=
  match r with
  | VInt _ => raise AttributeError
  | VList l =>
      s ← get;
      match heap s !! l with
      | Some vs => put (set_heap (<[l := vs ++ [v]]> (heap s)) s)
      | None => raise TypeError
      end
  end.

(** [a % b] on integers: the remainder has the sign of the divisor, which
    is [Z.modulo]; a zero divisor raises. *)
Definition py_mod (a b : Z) : M Z :=
  if (b =? 0)%Z then raise ZeroDivisionError else ret (a mod b)%Z.

(** [range(n)], an immutable sequence. *)
Definition range (n : nat) : list Z := Z.of_nat <$> seq 0 n.

(** [for (i, item) in enumerate(xs)]: the list iterator keeps the list
    object and a position [k], and on every round reads the object anew;
    it stops once [k] is past the current end. *)
Fixpoint for_enumerate (fuel : nat) (l : loc) (k : nat)
    (body : Z → value → M unit) : M unit :=
  match fuel with
  | O => out_of_fuel
  | S fuel' =>
      s ← get;
      match heap s !! l with
      | None => raise TypeError
      | Some vs =>
          match vs !! k with
          | None => ret tt
          | Some item =>
              body (Z.of_nat k) item;;
              for_enumerate fuel' l (S k) body
          end
      end
  end.

Definition enumerate_loop (fuel : nat) (xs : value)
    (body : Z → value → M unit) : M unit :=
  match xs with
  | VInt _ => raise TypeError
  | VList l => for_enumerate fuel l 0 body
  end.

(** [for x in range(n)] at module level: the loop variable is a global. *)
Fixpoint for_each (x : string) (ks : list Z) (body : Z → M unit) : M unit :=
  match ks with
  | [] => ret tt
  | k :: ks' => store_global x (VInt k) ;; body k ;; for_each x ks' body
  end.

(** The structure [print] shows, following references at most [d] deep. *)
Fixpoint snapshot (d : nat) (h : gmap loc (list value)) (v : value)
    : option pytree :=
  match v with
  | VInt n => Some (TInt n)
  | VList l =>
      match d with
      | O => None
      | S d' =>
          match h !! l with
          | None => None
          | Some vs =>
              match mapM (snapshot d' h) vs with
              | Some ts => Some (TList ts)
              | None => None
              end
          end
      end
  end.

Definition print (fuel : nat) (v : value) : M unit :=
  s ← get;
  match snapshot fuel (heap s) v with
  | Some t => put (set_stdout (stdout s ++ [t]) s)
  | None => out_of_fuel
  end.

(** ** The script *)

(** Lines 2 to 7:
<<
def submatrix(row, col):
    result = []
    for (i, item) in enumerate(nums):
        if ((i - col) % 4 != 0 and ((i >= (row + 1) * 4) or (i < row * 4))):
            result.append(item)
    return result
>>
    [result] is a local name; [nums] is read from the module globals. *)
Definition submatrix_body (result : value) (row col : Z) (i : Z)
    (item : value) : M unit :=
  m ← py_mod (i - col) 4;
  if negb (m =? 0)%Z && ((i >=? (row + 1) * 4)%Z || (i <? row * 4)%Z)
  then list_append result item
  else ret tt.

Definition submatrix (fuel : nat) (row col : Z) : M value :=
  result ← new_list [];
  nums ← load_global "nums";
  enumerate_loop fuel nums (submatrix_body result row col);;
  ret result.

(** Line 13, the body of the nested loops:
    [result.append(submatrix(i, j))]. *)
Definition driver_body (fuel : nat) (i j : Z) : M unit :=
  result ← load_global "result";
  entry ← submatrix fuel i j;
  list_append result entry.

(** The whole file.  The [def] statement itself changes nothing the
    properties below look at and is left out: [submatrix] is the Rocq
    function above. *)
Definition main (fuel : nat) : M unit :=
  nums ← new_list (VInt <$> range 16);
  store_global "nums" nums;;
  result ← new_list [];
  store_global "result" result;;
  for_each "i" (range 4) (λ i,
    for_each "j" (range 4) (λ j, driver_body fuel i j));;
  result ← load_global "result";
  print fuel result.

(** ** The column test in the specification's words

    The specification recommends the direct column test [i % 4 == col] in
    place of [(i - col) % 4 == 0].  This is [submatrix] with that one
    change. *)
Definition submatrix_body_direct (result : value) (row col : Z) (i : Z)
    (item : value) : M unit :=
  m ← py_mod i 4;
  if negb (m =? col)%Z && ((i >=? (row + 1) * 4)%Z || (i <? row * 4)%Z)
  then list_append result item
  else ret tt.

Definition submatrix_direct (fuel : nat) (row col : Z) : M value :=
  result ← new_list [];
  nums ← load_global "nums";
  enumerate_loop fuel nums (submatrix_body_direct result row col);;
  ret result.

(** ** Reading results *)

(** The contents of the list object a value refers to. *)
Definition deref_list (s : state) (v : value) : option (list value) :=
  match v with
  | VList l => heap s !! l
  | VInt _ => None
  end.

(** The contents of the list a module-level name is bound to. *)
Definition global_list (x : string) (s : state) : option (list value) :=
  globals s !! x ≫= deref_list s.

(** The contents of the list a call returned, read in the state the call
    ended in. *)
Definition returned_list (r : list state * outcome value)
    : option (list value) :=
  match outcome_of r with
  | Ok v s' => deref_list s' v
  | _ => None
  end.

(** The state a run ended in, when it ended normally. *)
Definition final_state {A} (r : list state * outcome A) : option state :=
  match outcome_of r with
  | Ok _ s' => Some s'
  | _ => None
  end.

(** The entries of the global [result] in state [s], each one read
    through its reference. *)
Definition result_collection (s : state) : option (list (list value)) :=
  global_list "result" s ≫= mapM (deref_list s).

(** What [print] shows of a list of lists of integers. *)
Definition show_entries (zss : list (list Z)) : pytree :=
  TList ((λ zs, TList (TInt <$> zs)) <$> zss).

(** The (row, col) pairs in the order of the nested loops. *)
Definition loop_pairs : list (Z * Z) :=
  i ← range 4; j ← range 4; [(i, j)].

(** A list of integers as a list of values. *)
Definition ints (zs : list Z) : list value := VInt <$> zs.

(** The integer a value is; list references do not occur where this is
    used. *)
Definition int_of (v : value) : Z :=
  match v with
  | VInt n => n
  | VList _ => 0%Z
  end.

(** The entries the script has collected when it ends, read off a run
    of [main]. *)
Definition entries : list (list Z) :=
  Eval vm_compute in
    match final_state (main 17 initial) ≫= result_collection with
    | Some es => (λ vs : list value, int_of <$> vs) <$> es
    | None => []
    end.

(** The state right after line 1, [nums = list(range(16))]. *)
Definition after_line_1 : state :=
  State {[0 := ints (range 16)]} {["nums" := VList 0]} [].

(** A sequence of integers in which later elements are larger. *)
Definition strictly_increasing (zs : list Z) : Prop :=
  ∀ (j k : nat) a b, j < k → zs !! j = Some a → zs !! k = Some b → (a < b)%Z.

(** The state in which the list object at [l] holds [vs]. *)
Definition with_list (l : loc) (vs : list value) (s : state) : state :=
  set_heap (<[l := vs]> (heap s)) s.

(** The filter condition of line 5 as a pure test on the index. *)
Definition selected (row col i : Z) : bool :=
  negb ((i - col) mod 4 =? 0)%Z
  && ((i >=? (row + 1) * 4)%Z || (i <? row * 4)%Z).

(** The items of [vs] the loop appends when [vs] starts at position [k]. *)
Fixpoint picked (row col : Z) (k : nat) (vs : list value) : list value :=
  match vs with
  | [] => []
  | v :: vs' =>
      (if selected row col (Z.of_nat k) then [v] else [])
      ++ picked row col (S k) vs'
  end.

(** [st] is [s] up to the contents of the one list object at [l]. *)
Definition only_list_differs (l : loc) (s st : state) : Prop :=
  ∃ vs, st = with_list l vs s.

(** ** The contract in the specification's words

    Index [i] of the source sequence is taken when it is outside column
    [col] and outside the band of row [row]. *)
Definition in_result (row col : Z) (i : nat) : Prop :=
  ((Z.of_nat i - col) mod 4 ≠ 0
   ∧ (Z.of_nat i >= (row + 1) * 4 ∨ Z.of_nat i < row * 4))%Z.

#[global] Instance in_result_dec row col i : Decision (in_result row col i).
Proof. unfold in_result. apply _. Defined.

(** The indices taken, in ascending order over [0..15]. *)
Definition taken_indices (row col : Z) : list nat :=
  filter (in_result row col) (seq 0 16).

(** The elements [nums[i]] at the taken indices, in that order. *)
Definition contract (nums : list value) (row col : Z) : list value :=
  (λ i : nat, nums !!! i) <$> taken_indices row col.

(** Only the residue of [col] modulo 4 matters, and every row outside
    [0..3] behaves like the row just outside the grid on its side. *)
Definition clamp_row (row : Z) : Z := Z.max (-1) (Z.min 4 row).

(** ** More fuel changes nothing

    [fuel_ext m m'] says that [m'] behaves as [m] wherever [m] does not
    run out of fuel. *)
Definition fuel_ext {A} (m m' : M A) : Prop :=
  ∀ s, outcome_of (m s) ≠ OutOfFuel → m' s = m s.

(** ** Selections from a source of any length *)

(** The elements of [nums] at the indices the filter takes, for a source
    sequence of any length. *)
Definition selection (nums : list value) (row col : Z) : list value :=
  (λ i : nat, nums !!! i)
    <$> filter (in_result row col) (seq 0 (length nums)).

(** Position [a] of a sequence with position [r] left out, as a position
    of the full sequence. *)
Definition skip_index (r a : nat) : nat := if a <? r then a else S a.

(** ** Basic facts about states and the monad *)

Section state_facts.
Implicit Types (s : state) (l : loc) (vs : list value).

Lemma with_list_globals l vs s : globals (with_list l vs s) = globals s.
Proof. reflexivity. Qed.

Lemma with_list_twice l vs ws s :
  with_list l vs (with_list l ws s) = with_list l vs s.
Proof.
  unfold with_list, set_heap; simpl. by rewrite insert_insert_eq.
Qed.

Lemma with_list_same l vs s : heap s !! l = Some vs → with_list l vs s = s.
Proof.
  intros Hl. destruct s as [h g o]; unfold with_list, set_heap; simpl in *.
  by rewrite insert_id.
Qed.

Lemma with_list_lookup l vs s : heap (with_list l vs s) !! l = Some vs.
Proof. apply lookup_insert_eq. Qed.

Lemma with_list_lookup_ne l l' vs s :
  l ≠ l' → heap (with_list l vs s) !! l' = heap s !! l'.
Proof. intros. by apply lookup_insert_ne. Qed.
End state_facts.

Lemma run_bind {A B} (m : M A) (f : A → M B) s :
  (m ≫= f) s =
    match m s with
    | (tr, Ok a s') => let '(tr', o) := f a s' in (tr ++ tr', o)
    | (tr, Raise e) => (tr, Raise e)
    | (tr, OutOfFuel) => (tr, OutOfFuel)
    end.
Proof. reflexivity. Qed.

Lemma run_list_append l vs v s :
  heap s !! l = Some vs →
  list_append (VList l) v s = ([with_list l (vs ++ [v]) s],
                               Ok tt (with_list l (vs ++ [v]) s)).
Proof. intros H. unfold list_append. rewrite run_bind; simpl. by rewrite H. Qed.

Lemma run_load_global x v s :
  globals s !! x = Some v → load_global x s = ([], Ok v s).
Proof. intros H. unfold load_global. rewrite run_bind; simpl. by rewrite H. Qed.

Lemma run_new_list vs s :
  new_list vs s =
    let l := fresh (dom (heap s)) in
    ([with_list l vs s], Ok (VList l) (with_list l vs s)).
Proof. reflexivity. Qed.

Lemma run_submatrix_body l acc row col i item s :
  heap s !! l = Some acc →
  submatrix_body (VList l) row col i item s =
    if selected row col i
    then ([with_list l (acc ++ [item]) s],
          Ok tt (with_list l (acc ++ [item]) s))
    else ([], Ok tt s).
Proof.
  intros H. unfold submatrix_body, py_mod. rewrite run_bind.
  cbn [Z.eqb ret app]. fold (selected row col i).
  destruct (selected row col i).
  - by rewrite (run_list_append _ _ _ _ H).
  - reflexivity.
Qed.

(** ** The loop of [submatrix] *)

Lemma for_enumerate_unfold fuel l k body s :
  for_enumerate (S fuel) l k body s =
    match heap s !! l with
    | None => ([], Raise TypeError)
    | Some vs =>
        match vs !! k with
        | None => ([], Ok tt s)
        | Some item =>
            (body (Z.of_nat k) item ≫= λ _, for_enumerate fuel l (S k) body) s
        end
    end.
Proof.
  cbn [for_enumerate]. rewrite run_bind. cbn [get app].
  destruct (heap s !! l) as [vs|]; [|reflexivity].
  destruct (vs !! k) as [item|]; [|reflexivity].
  by destruct ((body (Z.of_nat k) item ≫= _) s).
Qed.

Lemma run_for_enumerate row col ln lr vs :
  ln ≠ lr →
  ∀ fuel k acc s,
    heap s !! ln = Some vs →
    heap s !! lr = Some acc →
    length vs - k < fuel →
    ∃ tr,
      for_enumerate fuel ln k (submatrix_body (VList lr) row col) s
      = (tr, Ok tt (with_list lr (acc ++ picked row col k (drop k vs)) s))
      ∧ Forall (only_list_differs lr s) tr.
Proof.
  intros Hne fuel. induction fuel as [|fuel IH]; intros k acc s Hn Hr Hfuel.
  { lia. }
  rewrite for_enumerate_unfold, Hn.
  destruct (vs !! k) as [item|] eqn:Hk.
  - rewrite (drop_S _ _ _ Hk). cbn [picked].
    assert (length vs - S k < fuel) as Hfuel'.
    { apply lookup_lt_Some in Hk. lia. }
    rewrite run_bind, (run_submatrix_body _ _ _ _ _ _ _ Hr).
    destruct (selected row col (Z.of_nat k)).
    + destruct (IH (S k) (acc ++ [item]) (with_list lr (acc ++ [item]) s))
        as (tr & -> & Htr); [| apply with_list_lookup | done |].
      { by rewrite with_list_lookup_ne. }
      eexists; split.
      * by rewrite with_list_twice, <-(assoc_L (++)).
      * constructor; [by eexists|].
        eapply Forall_impl; [exact Htr|].
        intros st [ws ->]. exists ws. apply with_list_twice.
    + destruct (IH (S k) acc s) as (tr & -> & Htr); [done..|].
      by exists tr.
  - apply lookup_ge_None in Hk. rewrite (drop_ge _ _ Hk). cbn [picked].
    rewrite app_nil_r, (with_list_same _ _ _ Hr). by exists [].
Qed.

(** ** What a call of [submatrix] does

    Started in a state where the global [nums] refers to a list object
    holding [vs], and given fuel for one round more than [vs] is long, the
    call allocates one list, appends to that list only, and returns it
    holding [picked row col 0 vs]. *)
Lemma run_submatrix fuel row col s ln vs :
  globals s !! "nums" = Some (VList ln) →
  heap s !! ln = Some vs →
  length vs < fuel →
  let lr := fresh (dom (heap s)) in
  ∃ tr,
    submatrix fuel row col s
    = (with_list lr [] s :: tr,
       Ok (VList lr) (with_list lr (picked row col 0 vs) s))
    ∧ Forall (only_list_differs lr s) tr
    ∧ lr ≠ ln.
Proof.
  intros Hg Hn Hfuel lr.
  assert (heap s !! lr = None) as Hfresh.
  { apply not_elem_of_dom, is_fresh. }
  assert (ln ≠ lr) as Hne by congruence.
  destruct (run_for_enumerate row col ln lr vs Hne fuel 0 []
              (with_list lr [] s)) as (tr & Hrun & Htr).
  { by rewrite with_list_lookup_ne. }
  { apply with_list_lookup. }
  { lia. }
  exists tr. split; [|split; [|done]].
  - unfold submatrix. rewrite run_bind, run_new_list. cbn beta zeta iota.
    fold lr. rewrite run_bind, (run_load_global "nums" (VList ln)) by done.
    cbn beta iota. rewrite run_bind. cbn [enumerate_loop]. rewrite Hrun.
    rewrite drop_0, with_list_twice. cbn. by rewrite app_nil_r.
  - eapply Forall_impl; [exact Htr|].
    intros st [ws ->]. exists ws. apply with_list_twice.
Qed.

Lemma returned_list_submatrix fuel row col s ln vs :
  globals s !! "nums" = Some (VList ln) →
  heap s !! ln = Some vs →
  length vs < fuel →
  returned_list (submatrix fuel row col s) = Some (picked row col 0 vs).
Proof.
  intros Hg Hn Hfuel.
  destruct (run_submatrix fuel row col s ln vs Hg Hn Hfuel) as (tr & -> & _).
  unfold returned_list, outcome_of. cbn [snd]. apply with_list_lookup.
Qed.

Lemma selected_in_result row col (i : nat) :
  selected row col (Z.of_nat i) = true ↔ in_result row col i.
Proof.
  unfold selected, in_result.
  rewrite andb_true_iff, orb_true_iff, negb_true_iff.
  rewrite Z.eqb_neq, Z.geb_le, Z.ltb_lt. lia.
Qed.

Lemma picked_filter row col vs :
  ∀ k pre, length pre = k →
    picked row col k vs
    = (λ i : nat, (pre ++ vs) !!! i)
        <$> filter (in_result row col) (seq k (length vs)).
Proof.
  induction vs as [|v vs IH]; intros k pre Hpre; [done|].
  cbn [picked length seq]. rewrite filter_cons.
  rewrite (IH (S k) (pre ++ [v])) by (rewrite length_app; simpl; lia).
  rewrite <-(assoc_L (++)). cbn [app].
  destruct (selected row col (Z.of_nat k)) eqn:Hsel.
  - rewrite decide_True by by apply selected_in_result.
    rewrite fmap_cons. by rewrite list_lookup_total_middle.
  - rewrite decide_False; [done|].
    rewrite <-selected_in_result. congruence.
Qed.

Lemma picked_contract row col vs :
  length vs = 16 → picked row col 0 vs = contract vs row col.
Proof.
  intros Hlen. rewrite (picked_filter row col vs 0 []) by done.
  by rewrite Hlen.
Qed.

Lemma filter_ext_elem {A} (P Q : A → Prop)
    `{!∀ x, Decision (P x), !∀ x, Decision (Q x)} (l : list A) :
  (∀ x, x ∈ l → P x ↔ Q x) → filter P l = filter Q l.
Proof.
  induction l as [|a l IH]; intros Hext; [done|].
  rewrite !filter_cons, IH by (intros; apply Hext; by right).
  assert (P a ↔ Q a) as Ha by (apply Hext; by left).
  destruct (decide (P a)) as [HP|HP].
  - by rewrite decide_True by tauto.
  - by rewrite decide_False by tauto.
Qed.

Lemma in_result_normal row col i :
  i < 16 → in_result row col i ↔ in_result (clamp_row row) (col mod 4) i.
Proof.
  intros Hi. unfold in_result, clamp_row.
  rewrite Zminus_mod_idemp_r. lia.
Qed.

Lemma taken_indices_normal row col :
  taken_indices row col = taken_indices (clamp_row row) (col mod 4).
Proof.
  apply filter_ext_elem. intros i Hi. apply in_result_normal.
  apply elem_of_seq in Hi. lia.
Qed.

Lemma length_taken_indices row col :
  length (taken_indices row col)
  = if bool_decide (0 ≤ row ≤ 3)%Z then 9 else 12.
Proof.
  rewrite taken_indices_normal.
  assert (0 ≤ col mod 4 < 4)%Z as Hcol by (apply Z.mod_pos_bound; lia).
  assert (clamp_row row = row ∧ (0 ≤ row ≤ 3)%Z
          ∨ clamp_row row = (-1)%Z ∧ (row < 0)%Z
          ∨ clamp_row row = 4%Z ∧ (3 < row)%Z) as Hrow
    by (unfold clamp_row; lia).
  assert (col mod 4 = 0 ∨ col mod 4 = 1 ∨ col mod 4 = 2 ∨ col mod 4 = 3)%Z
    as Hc by lia.
  destruct Hrow as [[-> Hr]|[[-> Hr]|[-> Hr]]].
  - rewrite bool_decide_eq_true_2 by done.
    assert (row = 0 ∨ row = 1 ∨ row = 2 ∨ row = 3)%Z as Hr' by lia.
    destruct Hr' as [->|[->|[->| ->]]];
      destruct Hc as [->|[->|[->| ->]]]; by vm_compute.
  - rewrite bool_decide_eq_false_2 by lia.
    destruct Hc as [->|[->|[->| ->]]]; by vm_compute.
  - rewrite bool_decide_eq_false_2 by lia.
    destruct Hc as [->|[->|[->| ->]]]; by vm_compute.
Qed.

Lemma fuel_ext_refl {A} (m : M A) : fuel_ext m m.
Proof. by intros s _. Qed.

Lemma fuel_ext_bind {A B} (m m' : M A) (f f' : A → M B) :
  fuel_ext m m' → (∀ a, fuel_ext (f a) (f' a)) →
  fuel_ext (m ≫= f) (m' ≫= f').
Proof.
  intros Hm Hf s. rewrite !run_bind. intros Hok.
  rewrite Hm; destruct (m s) as [tr [a s1| |]]; try done.
  rewrite Hf; [done|]. by destruct (f a s1) as [tr1 []].
Qed.

Lemma fuel_ext_for_enumerate l body n :
  ∀ n' k, n ≤ n' →
    fuel_ext (for_enumerate n l k body) (for_enumerate n' l k body).
Proof.
  induction n as [|n IH]; intros n' k Hle s Hok; [done|].
  destruct n' as [|n']; [lia|].
  rewrite for_enumerate_unfold in Hok. rewrite !for_enumerate_unfold.
  destruct (heap s !! l) as [vs|]; [|done].
  destruct (vs !! k) as [item|]; [|done].
  revert Hok. apply fuel_ext_bind; [apply fuel_ext_refl|].
  intros _. apply IH. lia.
Qed.

Lemma fuel_ext_for_each x ks (body body' : Z → M unit) :
  (∀ k, fuel_ext (body k) (body' k)) →
  fuel_ext (for_each x ks body) (for_each x ks body').
Proof.
  intros Hbody. induction ks as [|k ks IH]; [apply fuel_ext_refl|].
  cbn [for_each]. apply fuel_ext_bind; [apply fuel_ext_refl|]. intros _.
  apply fuel_ext_bind; [apply Hbody|]. by intros _.
Qed.

Lemma snapshot_mono h d :
  ∀ d' v t, d ≤ d' → snapshot d h v = Some t → snapshot d' h v = Some t.
Proof.
  induction d as [|d IH]; intros d' [z|l] t Hle Hs.
  - by destruct d'.
  - done.
  - by destruct d'.
  - destruct d' as [|d']; [lia|]. cbn [snapshot] in *.
    destruct (h !! l) as [vs|]; [|done].
    destruct (mapM (snapshot d h) vs) as [ts|] eqn:Hts; [|done].
    apply mapM_Some in Hts.
    erewrite (proj2 (mapM_Some _ _ _)); [done|].
    eapply Forall2_impl; [exact Hts|].
    intros v' t' Hv. apply (IH d'); [lia|done].
Qed.

Lemma fuel_ext_print n n' v : n ≤ n' → fuel_ext (print n v) (print n' v).
Proof.
  intros Hle s. unfold print. rewrite !run_bind. cbn [get app].
  destruct (snapshot n (heap s) v) as [t|] eqn:Hs; [|done].
  by rewrite (snapshot_mono _ _ _ _ _ Hle Hs).
Qed.

Lemma fuel_ext_submatrix n n' row col :
  n ≤ n' → fuel_ext (submatrix n row col) (submatrix n' row col).
Proof.
  intros Hle. unfold submatrix.
  apply fuel_ext_bind; [apply fuel_ext_refl|]. intros result.
  apply fuel_ext_bind; [apply fuel_ext_refl|]. intros nums.
  apply fuel_ext_bind; [|intros; apply fuel_ext_refl].
  destruct nums; [apply fuel_ext_refl|].
  by apply fuel_ext_for_enumerate.
Qed.

Lemma fuel_ext_main n n' : n ≤ n' → fuel_ext (main n) (main n').
Proof.
  intros Hle. unfold main.
  do 4 (apply fuel_ext_bind; [apply fuel_ext_refl|]; intros ?).
  apply fuel_ext_bind.
  - apply fuel_ext_for_each. intros i. apply fuel_ext_for_each. intros j.
    unfold driver_body.
    apply fuel_ext_bind; [apply fuel_ext_refl|]. intros result.
    apply fuel_ext_bind; [by apply fuel_ext_submatrix|]. intros entry.
    apply fuel_ext_refl.
  - intros _. apply fuel_ext_bind; [apply fuel_ext_refl|]. intros result.
    by apply fuel_ext_print.
Qed.

(** ** The run of the whole script *)

Lemma global_list_inv x s vs :
  global_list x s = Some vs →
  ∃ l, globals s !! x = Some (VList l) ∧ heap s !! l = Some vs.
Proof.
  unfold global_list. destruct (globals s !! x) as [[z|l]|]; try done.
  intros Hl. by exists l.
Qed.

Lemma main_any_fuel fuel : 16 < fuel → main fuel initial = main 17 initial.
Proof.
  intros Hfuel. apply (fuel_ext_main 17 fuel); [lia|]. by vm_compute.
Qed.

Lemma main_17_final :
  ∃ s', outcome_of (main 17 initial) = Ok tt s'
        ∧ result_collection s' = Some (ints <$> entries)
        ∧ stdout s' = [show_entries entries]
        ∧ global_list "nums" s' = Some (ints (range 16)).
Proof. eexists. split; [by vm_compute|]. split_and!; by vm_compute. Qed.

(** ** Calls in the states of the script

    In every state where [nums] holds [0..15] a call returns the taken
    indices themselves. *)
Lemma lookup_total_ints_range n i :
  i < n → ints (range n) !!! i = VInt (Z.of_nat i).
Proof.
  intros Hi. unfold ints, range.
  rewrite list_lookup_total_alt, !list_lookup_fmap.
  by rewrite lookup_seq_lt.
Qed.

Lemma contract_range row col :
  contract (ints (range 16)) row col
  = ints (Z.of_nat <$> taken_indices row col).
Proof.
  unfold contract, ints. rewrite <-list_fmap_compose.
  apply list_fmap_ext. intros _ i Hi%list_elem_of_lookup_2.
  apply list_elem_of_filter in Hi as [_ Hi%elem_of_seq].
  apply lookup_total_ints_range. lia.
Qed.

Lemma returned_list_contract fuel row col s vs :
  global_list "nums" s = Some vs → length vs = 16 → 16 < fuel →
  returned_list (submatrix fuel row col s) = Some (contract vs row col).
Proof.
  intros (ln & Hg & Hn)%global_list_inv Hlen Hfuel.
  rewrite (returned_list_submatrix fuel row col s ln vs) by (done || lia).
  by rewrite picked_contract.
Qed.

Lemma returned_list_range fuel row col s :
  global_list "nums" s = Some (ints (range 16)) → 16 < fuel →
  returned_list (submatrix fuel row col s)
  = Some (ints (Z.of_nat <$> taken_indices row col)).
Proof.
  intros Hn Hfuel. rewrite (returned_list_contract _ _ _ _ _ Hn); [|done..].
  by rewrite contract_range.
Qed.

(** ** Order *)

Lemma StronglySorted_seq a n : StronglySorted lt (seq a n).
Proof.
  revert a. induction n as [|n IH]; intros a; cbn [seq]; constructor.
  - apply IH.
  - apply Forall_forall. intros x Hx%elem_of_seq. lia.
Qed.

Lemma StronglySorted_filter {A} (R : relation A) (P : A → Prop)
    `{!∀ x, Decision (P x)} (l : list A) :
  StronglySorted R l → StronglySorted R (filter P l).
Proof.
  induction 1 as [|a l Hl IH Ha]; [constructor|].
  rewrite filter_cons. destruct (decide (P a)); [|done].
  constructor; [done|].
  apply Forall_forall. intros x [_ Hx]%list_elem_of_filter.
  rewrite Forall_forall in Ha. by apply Ha.
Qed.

Lemma StronglySorted_lookup {A} (R : relation A) (l : list A) :
  StronglySorted R l →
  ∀ j k a b, j < k → l !! j = Some a → l !! k = Some b → R a b.
Proof.
  induction 1 as [|x l Hl IH Hx]; intros j k a b Hjk Hj Hk; [done|].
  destruct k as [|k]; [lia|]. cbn in Hk.
  destruct j as [|j]; cbn in Hj.
  - injection Hj as ->. rewrite Forall_forall in Hx.
    apply Hx. by eapply list_elem_of_lookup_2.
  - apply (IH j k); [lia|done..].
Qed.

Lemma strictly_increasing_taken row col :
  strictly_increasing (Z.of_nat <$> taken_indices row col).
Proof.
  intros j k a b Hjk. rewrite !list_lookup_fmap, !fmap_Some.
  intros (x & Hx & ->) (y & Hy & ->).
  apply inj_lt. revert Hjk Hx Hy. apply StronglySorted_lookup.
  apply StronglySorted_filter, StronglySorted_seq.
Qed.

(** ** The two column tests *)

Lemma column_test_direct i col :
  (0 ≤ col ≤ 3)%Z → ((i - col) mod 4 =? 0)%Z = (i mod 4 =? col)%Z.
Proof.
  intros Hcol. apply eq_iff_eq_true. rewrite !Z.eqb_eq.
  rewrite <-(Z.mod_small col 4) at 2 by lia.
  rewrite Z.cong_iff_0 by lia. done.
Qed.

Lemma submatrix_body_direct_eq result row col i item s :
  (0 ≤ col ≤ 3)%Z →
  submatrix_body_direct result row col i item s
  = submatrix_body result row col i item s.
Proof.
  intros Hcol. unfold submatrix_body_direct, submatrix_body, py_mod.
  rewrite !run_bind. cbn [Z.eqb ret app].
  by rewrite (column_test_direct i col).
Qed.

Lemma for_enumerate_ext body body' l :
  (∀ i item s, body i item s = body' i item s) →
  ∀ fuel k s,
    for_enumerate fuel l k body s = for_enumerate fuel l k body' s.
Proof.
  intros Hbody fuel. induction fuel as [|fuel IH]; intros k s; [done|].
  rewrite !for_enumerate_unfold.
  destruct (heap s !! l) as [vs|]; [|done].
  destruct (vs !! k) as [item|]; [|done].
  rewrite !run_bind, Hbody.
  destruct (body' (Z.of_nat k) item s) as [tr [[] s1| |]]; [|done..].
  by rewrite IH.
Qed.

Lemma mapM_total {A B} (f : A → option B) (g : A → B) (l : list A) :
  (∀ x, f x = Some (g x)) → mapM f l = Some (g <$> l).
Proof.
  intros Hf. apply mapM_Some. induction l; constructor; auto.
Qed.

Lemma global_list_with_list x l ln ws s :
  globals s !! x = Some (VList ln) → l ≠ ln →
  global_list x (with_list l ws s) = heap s !! ln.
Proof.
  intros Hg Hne. unfold global_list. rewrite with_list_globals, Hg.
  cbn. by apply lookup_insert_ne.
Qed.

Lemma main_reaches_after_line_1 :
  trace_of (main 17 initial) !! 1 = Some after_line_1.
Proof. by vm_compute. Qed.

(** * The properties of the specification *)

(** C1: for [row] and [col] in [0..3], [submatrix(row, col)] returns
    exactly the elements [nums[i]], in ascending order of [i] over
    [0..15], for which [(i - col) mod 4 ≠ 0] and
    [i >= (row+1)*4 or i < row*4]; which elements are taken depends on
    the index alone, so the statement holds whatever the sixteen
    elements of [nums] are. *)
Theorem submatrix_contract (fuel : nat) (row col : Z) (s : state)
    (nums : list value) :
  (0 ≤ row ≤ 3)%Z → (0 ≤ col ≤ 3)%Z →
  global_list "nums" s = Some nums → length nums = 16 → 16 < fuel →
  returned_list (submatrix fuel row col s)
  = Some ((λ i : nat, nums !!! i)
            <$> filter (λ i : nat,
                  ((Z.of_nat i - col) mod 4 ≠ 0
                   ∧ (Z.of_nat i >= (row + 1) * 4 ∨ Z.of_nat i < row * 4))%Z)
                  (seq 0 16)).
Proof.
  intros _ _ Hn Hlen Hfuel.
  by rewrite (returned_list_contract _ _ _ _ _ Hn Hlen Hfuel).
Qed.

Lemma submatrix_contract_witness :
  returned_list (submatrix 17 1 2 after_line_1)
  = Some ((λ i : nat, ints (range 16) !!! i)
            <$> filter (λ i : nat,
                  ((Z.of_nat i - 2) mod 4 ≠ 0
                   ∧ (Z.of_nat i >= (1 + 1) * 4 ∨ Z.of_nat i < 1 * 4))%Z)
                  (seq 0 16)).
Proof.
  apply submatrix_contract; [lia | lia | reflexivity | reflexivity | lia].
Defined.

(** C2: for [row] and [col] in [0..3] the list [submatrix(row, col)]
    returns has exactly 9 elements: of the 16 indices, 4 lie in the row
    band, 4 in the column class and exactly 1 in both, which leaves
    [16 - 4 - 4 + 1 = 9]. *)
Theorem submatrix_length_9 (fuel : nat) (row col : Z) (s : state)
    (nums : list value) :
  (0 ≤ row ≤ 3)%Z → (0 ≤ col ≤ 3)%Z →
  global_list "nums" s = Some nums → length nums = 16 → 16 < fuel →
  length <$> returned_list (submatrix fuel row col s) = Some 9
  ∧ length (filter (λ i : nat, (row * 4 ≤ Z.of_nat i < row * 4 + 4)%Z)
              (seq 0 16)) = 4
  ∧ length (filter (λ i : nat, (Z.of_nat i mod 4 = col)%Z) (seq 0 16)) = 4
  ∧ length (filter (λ i : nat,
              (row * 4 ≤ Z.of_nat i < row * 4 + 4)%Z
              ∧ (Z.of_nat i mod 4 = col)%Z) (seq 0 16)) = 1.
Proof.
  intros Hrow Hcol Hn Hlen Hfuel. split.
  - rewrite (returned_list_contract _ _ _ _ _ Hn Hlen Hfuel).
    change (Some (length (contract nums row col)) = Some 9).
    unfold contract. rewrite length_fmap, length_taken_indices.
    by rewrite bool_decide_eq_true_2.
  - assert (row = 0 ∨ row = 1 ∨ row = 2 ∨ row = 3)%Z
      as [->|[->|[->| ->]]] by lia;
    assert (col = 0 ∨ col = 1 ∨ col = 2 ∨ col = 3)%Z
      as [->|[->|[->| ->]]] by lia;
    by vm_compute.
Qed.

Lemma submatrix_length_9_witness :
  length <$> returned_list (submatrix 17 2 3 after_line_1) = Some 9
  ∧ length (filter (λ i : nat, (2 * 4 ≤ Z.of_nat i < 2 * 4 + 4)%Z)
              (seq 0 16)) = 4
  ∧ length (filter (λ i : nat, (Z.of_nat i mod 4 = 3)%Z) (seq 0 16)) = 4
  ∧ length (filter (λ i : nat,
              (2 * 4 ≤ Z.of_nat i < 2 * 4 + 4)%Z
              ∧ (Z.of_nat i mod 4 = 3)%Z) (seq 0 16)) = 1.
Proof.
  apply (submatrix_length_9 17 2 3 after_line_1 (ints (range 16)));
    [lia | lia | reflexivity | reflexivity | lia].
Defined.

(** C3: the collection the script prints has exactly 16 entries, the
    lists [submatrix(row, col)] returns taken in the order of the nested
    loops, [row] outside and [col] inside.  The entry at position
    [4*row + col] is what [submatrix(row, col)] returns, the first is
    [submatrix(0, 0)], the last is [submatrix(3, 3)], and the entries
    hold 144 integers altogether.  Here [s] is any state in which [nums]
    holds [0..15], as in every state of the script after line 1. *)
Theorem output_collection (fuel : nat) :
  16 < fuel →
  ∃ (s' : state) (zss : list (list Z)),
    outcome_of (main fuel initial) = Ok tt s'
    ∧ result_collection s' = Some (ints <$> zss)
    ∧ stdout s' = [show_entries zss]
    ∧ length zss = 16
    ∧ (∀ s, global_list "nums" s = Some (ints (range 16)) →
        mapM (λ rc : Z * Z, returned_list (submatrix fuel rc.1 rc.2 s))
          loop_pairs
        = Some (ints <$> zss))
    ∧ (∀ s (row col : nat),
        global_list "nums" s = Some (ints (range 16)) →
        row < 4 → col < 4 →
        returned_list (submatrix fuel (Z.of_nat row) (Z.of_nat col) s)
        = ints <$> zss !! (4 * row + col))
    ∧ (∀ s, global_list "nums" s = Some (ints (range 16)) →
        returned_list (submatrix fuel 0 0 s) = ints <$> head zss
        ∧ returned_list (submatrix fuel 3 3 s) = ints <$> last zss)
    ∧ sum_list (length <$> zss) = 144.
Proof.
  intros Hfuel. destruct main_17_final as (s' & Hout & Hcol & Hstd & _).
  exists s', entries. rewrite (main_any_fuel fuel Hfuel).
  split_and!.
  - exact Hout.
  - exact Hcol.
  - exact Hstd.
  - reflexivity.
  - intros s Hn.
    rewrite (mapM_total _
      (λ rc : Z * Z, ints (Z.of_nat <$> taken_indices rc.1 rc.2))).
    + by vm_compute.
    + intros [i j]. by apply returned_list_range.
  - intros s row col Hn Hrow Hcol'.
    rewrite (returned_list_range _ _ _ _ Hn Hfuel).
    do 4 (destruct row as [|row]; [
      do 4 (destruct col as [|col]; [by vm_compute|]); lia |]).
    lia.
  - intros s Hn.
    rewrite !(returned_list_range _ _ _ _ Hn Hfuel). split; by vm_compute.
  - by vm_compute.
Qed.

Lemma output_collection_witness :
  ∃ (s' : state) (zss : list (list Z)),
    outcome_of (main 17 initial) = Ok tt s'
    ∧ result_collection s' = Some (ints <$> zss)
    ∧ stdout s' = [show_entries zss]
    ∧ length zss = 16
    ∧ (∀ s, global_list "nums" s = Some (ints (range 16)) →
        mapM (λ rc : Z * Z, returned_list (submatrix 17 rc.1 rc.2 s))
          loop_pairs
        = Some (ints <$> zss))
    ∧ (∀ s (row col : nat),
        global_list "nums" s = Some (ints (range 16)) →
        row < 4 → col < 4 →
        returned_list (submatrix 17 (Z.of_nat row) (Z.of_nat col) s)
        = ints <$> zss !! (4 * row + col))
    ∧ (∀ s, global_list "nums" s = Some (ints (range 16)) →
        returned_list (submatrix 17 0 0 s) = ints <$> head zss
        ∧ returned_list (submatrix 17 3 3 s) = ints <$> last zss)
    ∧ sum_list (length <$> zss) = 144.
Proof. apply (output_collection 17). lia. Defined.

(** C4: for [col] in [0..3] and [i] in [0..15] the test
    [(i - col) % 4 != 0] of the code holds exactly when the direct test
    [i % 4 != col] does, so [submatrix] written with the direct test
    behaves as [submatrix] itself: same states passed through, same
    outcome. *)
Theorem column_test_equivalent (col : Z) :
  (0 ≤ col ≤ 3)%Z →
  (∀ i : Z, (0 ≤ i ≤ 15)%Z →
     ((i - col) mod 4 ≠ 0 ↔ i mod 4 ≠ col)%Z)
  ∧ (∀ (fuel : nat) (row : Z) (s : state),
       submatrix_direct fuel row col s = submatrix fuel row col s).
Proof.
  intros Hcol. split.
  - intros i _. rewrite <-!Z.eqb_neq. by rewrite column_test_direct.
  - intros fuel row s. unfold submatrix_direct, submatrix.
    rewrite !run_bind. destruct (new_list [] s) as [tr [r s1| |]]; [|done..].
    rewrite !run_bind.
    destruct (load_global "nums" s1) as [tr1 [[z|l] s2| |]]; [done| |done..].
    rewrite !run_bind. cbn [enumerate_loop].
    rewrite (for_enumerate_ext (submatrix_body_direct r row col)
               (submatrix_body r row col)); [done|].
    intros. by apply submatrix_body_direct_eq.
Qed.

Lemma column_test_equivalent_witness :
  (∀ i : Z, (0 ≤ i ≤ 15)%Z → ((i - 3) mod 4 ≠ 0 ↔ i mod 4 ≠ 3)%Z)
  ∧ (∀ (fuel : nat) (row : Z) (s : state),
       submatrix_direct fuel row 3 s = submatrix fuel row 3 s).
Proof. apply (column_test_equivalent 3). lia. Defined.

(** C5: with [nums = [0..15]], [submatrix(0, 0)] returns exactly
    [[5, 6, 7, 9, 10, 11, 13, 14, 15]], 9 elements: what is left of
    [0..15] once the row band [0, 1, 2, 3] and the column-0 indices
    [0, 4, 8, 12] are removed. *)
Theorem submatrix_0_0 (fuel : nat) (s : state) :
  global_list "nums" s = Some (ints (range 16)) → 16 < fuel →
  returned_list (submatrix fuel 0 0 s)
  = Some (ints [5; 6; 7; 9; 10; 11; 13; 14; 15]%Z)
  ∧ length <$> returned_list (submatrix fuel 0 0 s) = Some 9
  ∧ filter (λ i : Z, (i ∉ [0; 1; 2; 3]%Z) ∧ (i ∉ [0; 4; 8; 12]%Z)) (range 16)
    = [5; 6; 7; 9; 10; 11; 13; 14; 15]%Z.
Proof.
  intros Hn Hfuel. rewrite (returned_list_range _ _ _ _ Hn Hfuel).
  split_and!; by vm_compute.
Qed.

Lemma submatrix_0_0_witness :
  returned_list (submatrix 17 0 0 after_line_1)
  = Some (ints [5; 6; 7; 9; 10; 11; 13; 14; 15]%Z)
  ∧ length <$> returned_list (submatrix 17 0 0 after_line_1) = Some 9
  ∧ filter (λ i : Z, (i ∉ [0; 1; 2; 3]%Z) ∧ (i ∉ [0; 4; 8; 12]%Z)) (range 16)
    = [5; 6; 7; 9; 10; 11; 13; 14; 15]%Z.
Proof. apply submatrix_0_0; [reflexivity | lia]. Defined.

(** C6: with [nums = [0..15]], [submatrix(3, 3)] returns exactly
    [[0, 1, 2, 4, 5, 6, 8, 9, 10]], 9 elements: what is left of [0..15]
    once the row band [12, 13, 14, 15] and the column-3 indices
    [3, 7, 11, 15] are removed. *)
Theorem submatrix_3_3 (fuel : nat) (s : state) :
  global_list "nums" s = Some (ints (range 16)) → 16 < fuel →
  returned_list (submatrix fuel 3 3 s)
  = Some (ints [0; 1; 2; 4; 5; 6; 8; 9; 10]%Z)
  ∧ length <$> returned_list (submatrix fuel 3 3 s) = Some 9
  ∧ filter (λ i : Z, (i ∉ [12; 13; 14; 15]%Z) ∧ (i ∉ [3; 7; 11; 15]%Z))
      (range 16)
    = [0; 1; 2; 4; 5; 6; 8; 9; 10]%Z.
Proof.
  intros Hn Hfuel. rewrite (returned_list_range _ _ _ _ Hn Hfuel).
  split_and!; by vm_compute.
Qed.

Lemma submatrix_3_3_witness :
  returned_list (submatrix 17 3 3 after_line_1)
  = Some (ints [0; 1; 2; 4; 5; 6; 8; 9; 10]%Z)
  ∧ length <$> returned_list (submatrix 17 3 3 after_line_1) = Some 9
  ∧ filter (λ i : Z, (i ∉ [12; 13; 14; 15]%Z) ∧ (i ∉ [3; 7; 11; 15]%Z))
      (range 16)
    = [0; 1; 2; 4; 5; 6; 8; 9; 10]%Z.
Proof. apply submatrix_3_3; [reflexivity | lia]. Defined.

(** C7: for [row] and [col] in [0..3], with [nums = [0..15]], the list
    [submatrix(row, col)] returns is strictly increasing. *)
Theorem submatrix_strictly_increasing (fuel : nat) (row col : Z)
    (s : state) :
  (0 ≤ row ≤ 3)%Z → (0 ≤ col ≤ 3)%Z →
  global_list "nums" s = Some (ints (range 16)) → 16 < fuel →
  ∃ zs : list Z,
    returned_list (submatrix fuel row col s) = Some (ints zs)
    ∧ strictly_increasing zs.
Proof.
  intros _ _ Hn Hfuel. exists (Z.of_nat <$> taken_indices row col). split.
  - by apply returned_list_range.
  - apply strictly_increasing_taken.
Qed.

Lemma submatrix_strictly_increasing_witness :
  ∃ zs : list Z,
    returned_list (submatrix 17 1 0 after_line_1) = Some (ints zs)
    ∧ strictly_increasing zs.
Proof.
  apply submatrix_strictly_increasing; [lia | lia | reflexivity | lia].
Defined.

(** C8: for all integers [row] and [col], in range or not,
    [submatrix(row, col)] ends normally and returns a list; no exception
    is raised.  The list holds the elements of [nums] at the indices the
    arithmetic of the filter selects, so its size is the number of those
    indices. *)
Theorem submatrix_never_raises (fuel : nat) (row col : Z) (s : state)
    (nums : list value) :
  global_list "nums" s = Some nums → length nums < fuel →
  ∃ (l : loc) (s' : state) (vs : list value),
    outcome_of (submatrix fuel row col s) = Ok (VList l) s'
    ∧ heap s' !! l = Some vs
    ∧ vs = (λ i : nat, nums !!! i)
             <$> filter (in_result row col) (seq 0 (length nums)).
Proof.
  intros (ln & Hg & Hn)%global_list_inv Hfuel.
  destruct (run_submatrix fuel row col s ln nums Hg Hn Hfuel)
    as (tr & Hrun & _).
  eexists _, _, _. rewrite Hrun. split_and!.
  - reflexivity.
  - apply with_list_lookup.
  - apply (picked_filter row col nums 0 []). reflexivity.
Qed.

Lemma submatrix_never_raises_witness :
  ∃ (l : loc) (s' : state) (vs : list value),
    outcome_of (submatrix 17 (-2) 9 after_line_1) = Ok (VList l) s'
    ∧ heap s' !! l = Some vs
    ∧ vs = (λ i : nat, ints (range 16) !!! i)
             <$> filter (in_result (-2) 9)
                   (seq 0 (length (ints (range 16)))).
Proof.
  apply (submatrix_never_raises 17 (-2) 9 after_line_1 (ints (range 16)));
    [reflexivity | vm_compute; lia].
Defined.

(** C9: [nums] equals [0..15] throughout the program.  The list object
    line 1 creates holds [0..15] in every state the script passes
    through, and from the moment the name [nums] is bound (the second
    state) the name refers to a list holding [0..15], up to and
    including the final state.  Every call of [submatrix], whatever its
    arguments and whatever [nums] holds, leaves [nums] as it found it in
    every state it passes through, and the list it builds and returns is
    not the object [nums] refers to. *)
Theorem nums_never_changes :
  (∀ fuel : nat, 16 < fuel →
     ∃ s' : state,
       outcome_of (main fuel initial) = Ok tt s'
       ∧ global_list "nums" s' = Some (ints (range 16))
       ∧ Forall (λ st, heap st !! 0 = Some (ints (range 16)))
           (trace_of (main fuel initial))
       ∧ Forall (λ st, global_list "nums" st = Some (ints (range 16)))
           (drop 1 (trace_of (main fuel initial))))
  ∧ (∀ (fuel : nat) (row col : Z) (s : state) (nums : list value),
       global_list "nums" s = Some nums → length nums < fuel →
       Forall (λ st, global_list "nums" st = Some nums)
         (trace_of (submatrix fuel row col s))
       ∧ ∃ (v : value) (s' : state),
           outcome_of (submatrix fuel row col s) = Ok v s'
           ∧ global_list "nums" s' = Some nums
           ∧ globals s' !! "nums" ≠ Some v).
Proof.
  split.
  - intros fuel Hfuel. rewrite (main_any_fuel fuel Hfuel).
    destruct main_17_final as (s' & Hout & _ & _ & Hnums). exists s'.
    split_and!; [exact Hout | exact Hnums | |];
      apply (bool_decide_unpack _); by vm_compute.
  - intros fuel row col s nums (ln & Hg & Hn)%global_list_inv Hfuel.
    destruct (run_submatrix fuel row col s ln nums Hg Hn Hfuel)
      as (tr & Hrun & Htr & Hne).
    rewrite Hrun. cbn [trace_of outcome_of fst snd]. split.
    + constructor.
      * by rewrite (global_list_with_list _ _ ln).
      * eapply Forall_impl; [exact Htr|]. intros st [ws ->].
        by rewrite (global_list_with_list _ _ ln).
    + eexists _, _. split; [reflexivity|]. split.
      * by rewrite (global_list_with_list _ _ ln).
      * rewrite with_list_globals, Hg. congruence.
Qed.

Lemma nums_never_changes_witness :
  (∃ s' : state,
     outcome_of (main 17 initial) = Ok tt s'
     ∧ global_list "nums" s' = Some (ints (range 16))
     ∧ Forall (λ st, heap st !! 0 = Some (ints (range 16)))
         (trace_of (main 17 initial))
     ∧ Forall (λ st, global_list "nums" st = Some (ints (range 16)))
         (drop 1 (trace_of (main 17 initial))))
  ∧ (Forall (λ st, global_list "nums" st = Some (ints (range 16)))
       (trace_of (submatrix 17 2 1 after_line_1))
     ∧ ∃ (v : value) (s' : state),
         outcome_of (submatrix 17 2 1 after_line_1) = Ok v s'
         ∧ global_list "nums" s' = Some (ints (range 16))
         ∧ globals s' !! "nums" ≠ Some v).
Proof.
  split.
  - apply (proj1 nums_never_changes 17). lia.
  - apply (proj2 nums_never_changes 17 2%Z 1%Z after_line_1
             (ints (range 16)));
      [reflexivity | vm_compute; lia].
Defined.

(** C10: for all integers [row] and [col], [submatrix(row, col)] never
    returns an empty list: it returns 9 elements when [0 <= row <= 3]
    and 12 otherwise.  The column test removes exactly 4 of the indices
    [0..15] whatever [col] is, and for [row] outside [0..3] the row test
    removes none of them. *)
Theorem submatrix_length_any (fuel : nat) (row col : Z) (s : state)
    (nums : list value) :
  global_list "nums" s = Some nums → length nums = 16 → 16 < fuel →
  length <$> returned_list (submatrix fuel row col s)
  = Some (if bool_decide (0 ≤ row ≤ 3)%Z then 9 else 12)
  ∧ returned_list (submatrix fuel row col s) ≠ Some []
  ∧ length (filter (λ i : nat, ((Z.of_nat i - col) mod 4 = 0)%Z) (seq 0 16))
    = 4
  ∧ (¬ (0 ≤ row ≤ 3)%Z →
     ∀ i : nat, i < 16 →
       (Z.of_nat i >= (row + 1) * 4 ∨ Z.of_nat i < row * 4)%Z).
Proof.
  intros Hn Hlen Hfuel.
  rewrite (returned_list_contract _ _ _ _ _ Hn Hlen Hfuel).
  assert (length (contract nums row col)
          = if bool_decide (0 ≤ row ≤ 3)%Z then 9 else 12) as Hsize.
  { unfold contract. by rewrite length_fmap, length_taken_indices. }
  split_and!.
  - change (Some (length (contract nums row col)) = Some
              (if bool_decide (0 ≤ row ≤ 3)%Z then 9 else 12)).
    by rewrite Hsize.
  - intros [= Hnil]. rewrite Hnil in Hsize. by case_bool_decide.
  - rewrite (filter_ext_elem _
      (λ i : nat, ((Z.of_nat i - col mod 4) mod 4 = 0)%Z)).
    + assert (0 ≤ col mod 4 < 4)%Z as Hcol by (apply Z.mod_pos_bound; lia).
      assert (col mod 4 = 0 ∨ col mod 4 = 1 ∨ col mod 4 = 2 ∨ col mod 4 = 3)%Z
        as [->|[->|[->| ->]]] by lia; by vm_compute.
    + intros i _. by rewrite Zminus_mod_idemp_r.
  - lia.
Qed.

Lemma submatrix_length_any_witness :
  length <$> returned_list (submatrix 17 7 (-5) after_line_1)
  = Some (if bool_decide (0 ≤ 7 ≤ 3)%Z then 9 else 12)
  ∧ returned_list (submatrix 17 7 (-5) after_line_1) ≠ Some []
  ∧ length (filter (λ i : nat, ((Z.of_nat i - -5) mod 4 = 0)%Z) (seq 0 16))
    = 4
  ∧ (¬ (0 ≤ 7 ≤ 3)%Z →
     ∀ i : nat, i < 16 →
       (Z.of_nat i >= (7 + 1) * 4 ∨ Z.of_nat i < 7 * 4)%Z).
Proof.
  apply (submatrix_length_any 17 7 (-5) after_line_1 (ints (range 16)));
    [reflexivity | reflexivity | lia].
Defined.

(** * Further properties of the code *)

(** ** Helper facts *)

Lemma picked_selection row col nums :
  picked row col 0 nums = selection nums row col.
Proof. by apply (picked_filter row col nums 0 []). Qed.

Lemma picked_ext row col row' col' :
  (∀ i, selected row col i = selected row' col' i) →
  ∀ vs k, picked row col k vs = picked row' col' k vs.
Proof.
  intros Hsel vs. induction vs as [|v vs IH]; intros k; [done|].
  cbn [picked]. by rewrite Hsel, IH.
Qed.

Lemma picked_sublist row col vs : ∀ k, picked row col k vs `sublist_of` vs.
Proof.
  induction vs as [|v vs IH]; intros k; [constructor|].
  cbn [picked]. destruct (selected row col (Z.of_nat k)); cbn [app].
  - by apply sublist_skip.
  - by apply sublist_cons.
Qed.

Lemma run_submatrix_global fuel row col s nums :
  global_list "nums" s = Some nums → length nums < fuel →
  let l := fresh (dom (heap s)) in
  ∃ tr,
    submatrix fuel row col s
    = (with_list l [] s :: tr,
       Ok (VList l) (with_list l (picked row col 0 nums) s))
    ∧ Forall (only_list_differs l s) tr
    ∧ heap s !! l = None
    ∧ globals s !! "nums" ≠ Some (VList l).
Proof.
  intros (ln & Hg & Hn)%global_list_inv Hfuel l.
  destruct (run_submatrix fuel row col s ln nums Hg Hn Hfuel)
    as (tr & Hrun & Htr & Hne).
  exists tr. split_and!; [done | done | |].
  - apply not_elem_of_dom, is_fresh.
  - rewrite Hg. intros [= Heq]. by apply Hne.
Qed.

(** ** Errors of [submatrix] *)

(** X1: called while the module has no name [nums], [submatrix] raises
    [NameError] for [nums]; by then it has created its empty [result]
    list, and that is all it did. *)
Theorem submatrix_nums_unbound (fuel : nat) (row col : Z) (s : state) :
  globals s !! "nums" = None →
  submatrix fuel row col s
  = ([with_list (fresh (dom (heap s))) [] s], Raise (NameError "nums")).
Proof.
  intros Hg. unfold submatrix. rewrite run_bind, run_new_list.
  cbn beta zeta iota. rewrite run_bind. unfold load_global at 1.
  rewrite run_bind. cbn [get app]. by rewrite with_list_globals, Hg.
Qed.

Lemma submatrix_nums_unbound_witness :
  submatrix 17 1 2 initial
  = ([with_list (fresh (dom (heap initial))) [] initial],
     Raise (NameError "nums")).
Proof. apply submatrix_nums_unbound. reflexivity. Defined.

(** X2: called while [nums] is bound to an integer, [submatrix] raises
    [TypeError] (an integer cannot be enumerated), again after creating
    its empty [result] list and nothing else. *)
Theorem submatrix_nums_not_a_list (fuel : nat) (row col n : Z) (s : state) :
  globals s !! "nums" = Some (VInt n) →
  submatrix fuel row col s
  = ([with_list (fresh (dom (heap s))) [] s], Raise TypeError).
Proof.
  intros Hg. unfold submatrix. rewrite run_bind, run_new_list.
  cbn beta zeta iota.
  rewrite run_bind, (run_load_global "nums" (VInt n)) by done.
  cbn beta iota. by rewrite run_bind.
Qed.

Lemma submatrix_nums_not_a_list_witness :
  submatrix 17 1 2 (set_globals {["nums" := VInt 5]} initial)
  = ([with_list
        (fresh (dom (heap (set_globals {["nums" := VInt 5]} initial)))) []
        (set_globals {["nums" := VInt 5]} initial)],
     Raise TypeError).
Proof. apply (submatrix_nums_not_a_list 17 1 2 5). reflexivity. Defined.

(** ** What a call changes *)

(** X3: a call of [submatrix] that finds [nums] bound to a list adds one
    list object, at an address that was free, and changes nothing else:
    every other object, the module globals and the output are as before,
    in the state the call ends in and in every state on the way. *)
Theorem submatrix_frame (fuel : nat) (row col : Z) (s : state)
    (nums : list value) :
  global_list "nums" s = Some nums → length nums < fuel →
  ∃ (l : loc) (vs : list value) (s' : state),
    outcome_of (submatrix fuel row col s) = Ok (VList l) s'
    ∧ heap s !! l = None
    ∧ heap s' = <[l := vs]> (heap s)
    ∧ globals s' = globals s
    ∧ stdout s' = stdout s
    ∧ Forall (λ st, ∃ ws, heap st = <[l := ws]> (heap s)
                          ∧ globals st = globals s
                          ∧ stdout st = stdout s)
        (trace_of (submatrix fuel row col s)).
Proof.
  intros Hn Hfuel.
  destruct (run_submatrix_global fuel row col s nums Hn Hfuel)
    as (tr & Hrun & Htr & Hfree & _).
  eexists _, _, _. rewrite Hrun. cbn [outcome_of trace_of fst snd].
  split_and!; [reflexivity | exact Hfree | reflexivity..|].
  constructor; [by eexists|].
  eapply Forall_impl; [exact Htr|]. intros st [ws ->]. by exists ws.
Qed.

Lemma submatrix_frame_witness :
  ∃ (l : loc) (vs : list value) (s' : state),
    outcome_of (submatrix 17 1 2 after_line_1) = Ok (VList l) s'
    ∧ heap after_line_1 !! l = None
    ∧ heap s' = <[l := vs]> (heap after_line_1)
    ∧ globals s' = globals after_line_1
    ∧ stdout s' = stdout after_line_1
    ∧ Forall (λ st, ∃ ws, heap st = <[l := ws]> (heap after_line_1)
                          ∧ globals st = globals after_line_1
                          ∧ stdout st = stdout after_line_1)
        (trace_of (submatrix 17 1 2 after_line_1)).
Proof.
  apply (submatrix_frame 17 1 2 after_line_1 (ints (range 16)));
    [reflexivity | vm_compute; lia].
Defined.

(** X4: whatever [nums] holds and whatever the arguments are, the list
    [submatrix] returns is a sub-sequence of [nums]: elements are only
    left out, never reordered, repeated or invented. *)
Theorem submatrix_sublist (fuel : nat) (row col : Z) (s : state)
    (nums : list value) :
  global_list "nums" s = Some nums → length nums < fuel →
  ∃ vs : list value,
    returned_list (submatrix fuel row col s) = Some vs
    ∧ vs `sublist_of` nums.
Proof.
  intros (ln & Hg & Hn)%global_list_inv Hfuel.
  exists (picked row col 0 nums). split.
  - by apply (returned_list_submatrix fuel row col s ln).
  - apply picked_sublist.
Qed.

Lemma submatrix_sublist_witness :
  ∃ vs : list value,
    returned_list (submatrix 17 5 (-3) after_line_1) = Some vs
    ∧ vs `sublist_of` ints (range 16).
Proof.
  apply (submatrix_sublist 17 5 (-3) after_line_1);
    [reflexivity | vm_compute; lia].
Defined.

(** X5: when [nums] is the empty list, [submatrix] returns an empty list
    for all arguments. *)
Theorem submatrix_empty_source (fuel : nat) (row col : Z) (s : state) :
  global_list "nums" s = Some [] → 0 < fuel →
  returned_list (submatrix fuel row col s) = Some [].
Proof.
  intros (ln & Hg & Hn)%global_list_inv Hfuel.
  by rewrite (returned_list_submatrix fuel row col s ln []).
Qed.

Lemma submatrix_empty_source_witness :
  returned_list
    (submatrix 1 2 3 (State {[0 := []]} {["nums" := VList 0]} []))
  = Some [].
Proof. apply submatrix_empty_source; [reflexivity | lia]. Defined.

(** ** The filter as row and column arithmetic *)

Lemma selected_col_period row col k i :
  selected row (col + 4 * k) i = selected row col i.
Proof.
  unfold selected. replace (i - (col + 4 * k))%Z
    with (i - col + (- k) * 4)%Z by lia.
  by rewrite Z_mod_plus_full.
Qed.

Lemma in_result_div_mod row col (i : nat) :
  in_result row col i
  ↔ (Z.of_nat i / 4 ≠ row ∧ Z.of_nat i mod 4 ≠ col mod 4)%Z.
Proof.
  unfold in_result.
  pose proof (Z.div_mod (Z.of_nat i) 4 ltac:(lia)) as Hdm.
  pose proof (Z.mod_pos_bound (Z.of_nat i) 4 ltac:(lia)) as Hm.
  rewrite (Z.cong_iff_0 (Z.of_nat i) col 4). lia.
Qed.

(** X6: the column argument only counts modulo 4: a call with
    [col + 4*k] behaves exactly as the call with [col], in every state
    and for every integer [k]. *)
Theorem submatrix_col_period (fuel : nat) (row col k : Z) (s : state) :
  submatrix fuel row (col + 4 * k) s = submatrix fuel row col s.
Proof.
  unfold submatrix. rewrite !run_bind.
  destruct (new_list [] s) as [tr [r s1| |]]; [|done..].
  rewrite !run_bind.
  destruct (load_global "nums" s1) as [tr1 [[z|l] s2| |]]; [done| |done..].
  rewrite !run_bind. cbn [enumerate_loop].
  rewrite (for_enumerate_ext (submatrix_body r row (col + 4 * k))
             (submatrix_body r row col)); [done|].
  intros i item s3. unfold submatrix_body, py_mod. rewrite !run_bind.
  cbn [Z.eqb ret app]. fold (selected row (col + 4 * k) i).
  fold (selected row col i). by rewrite selected_col_period.
Qed.

(** X7: for a source of any length and all integer arguments,
    [submatrix(row, col)] returns the elements whose index [i] has
    [i // 4 != row] and [i % 4 != col % 4], in index order: the row test
    of line 5 is floor division by 4 and the column test is the residue
    modulo 4. *)
Theorem submatrix_div_mod (fuel : nat) (row col : Z) (s : state)
    (nums : list value) :
  global_list "nums" s = Some nums → length nums < fuel →
  returned_list (submatrix fuel row col s)
  = Some ((λ i : nat, nums !!! i)
            <$> filter (λ i : nat,
                  (Z.of_nat i / 4 ≠ row
                   ∧ Z.of_nat i mod 4 ≠ col mod 4)%Z)
                  (seq 0 (length nums))).
Proof.
  intros (ln & Hg & Hn)%global_list_inv Hfuel.
  rewrite (returned_list_submatrix fuel row col s ln nums) by done.
  rewrite picked_selection. unfold selection. do 2 f_equal.
  apply filter_ext_elem. intros i _. apply in_result_div_mod.
Qed.

Lemma submatrix_div_mod_witness :
  returned_list (submatrix 17 2 (-1) after_line_1)
  = Some ((λ i : nat, ints (range 16) !!! i)
            <$> filter (λ i : nat,
                  (Z.of_nat i / 4 ≠ 2
                   ∧ Z.of_nat i mod 4 ≠ (-1) mod 4)%Z)
                  (seq 0 (length (ints (range 16))))).
Proof.
  apply (submatrix_div_mod 17 2 (-1) after_line_1 (ints (range 16)));
    [reflexivity | vm_compute; lia].
Defined.

(** ** The result as a minor of the grid *)

Lemma taken_indices_minor (row col a b : nat) :
  row < 4 → col < 4 → a < 3 → b < 3 →
  taken_indices (Z.of_nat row) (Z.of_nat col) !! (3 * a + b)
  = Some (4 * skip_index row a + skip_index col b).
Proof.
  intros Hrow Hcol Ha Hb.
  do 4 (destruct row as [|row]; [
    do 4 (destruct col as [|col]; [
      do 3 (destruct a as [|a]; [
        do 3 (destruct b as [|b]; [by vm_compute|]); lia |]); lia |]);
    lia |]).
  lia.
Qed.

(** X8: for [row] and [col] in [0..3] and any sixteen elements read as a
    4 by 4 grid in row-major order, [submatrix(row, col)] is the 3 by 3
    grid left when row [row] and column [col] are struck out, again in
    row-major order: its element at row [a], column [b] is the grid's
    element at row [a] (or [a + 1] from [row] on) and column [b] (or
    [b + 1] from [col] on). *)
Theorem submatrix_minor (fuel : nat) (row col a b : nat) (s : state)
    (nums : list value) :
  row < 4 → col < 4 → a < 3 → b < 3 →
  global_list "nums" s = Some nums → length nums = 16 → 16 < fuel →
  ∃ vs : list value,
    returned_list (submatrix fuel (Z.of_nat row) (Z.of_nat col) s) = Some vs
    ∧ length vs = 9
    ∧ is_Some (vs !! (3 * a + b))
    ∧ vs !! (3 * a + b)
      = nums !! (4 * skip_index row a + skip_index col b).
Proof.
  intros Hrow Hcol Ha Hb Hn Hlen Hfuel.
  exists (contract nums (Z.of_nat row) (Z.of_nat col)).
  assert (4 * skip_index row a + skip_index col b < length nums) as Hidx.
  { unfold skip_index.
    destruct (a <? row) eqn:Ea; destruct (b <? col) eqn:Eb;
      rewrite ?Nat.ltb_lt, ?Nat.ltb_ge in *; lia. }
  assert (contract nums (Z.of_nat row) (Z.of_nat col) !! (3 * a + b)
          = nums !! (4 * skip_index row a + skip_index col b)) as Hget.
  { unfold contract.
    rewrite list_lookup_fmap, taken_indices_minor by done.
    cbn [fmap option_fmap option_map].
    symmetry. by apply list_lookup_lookup_total_lt. }
  split_and!.
  - by apply returned_list_contract.
  - unfold contract. rewrite length_fmap, length_taken_indices.
    rewrite bool_decide_eq_true_2; [done | lia].
  - rewrite Hget. by apply lookup_lt_is_Some_2.
  - exact Hget.
Qed.

Lemma submatrix_minor_witness :
  ∃ vs : list value,
    returned_list (submatrix 17 (Z.of_nat 1) (Z.of_nat 2) after_line_1)
    = Some vs
    ∧ length vs = 9
    ∧ is_Some (vs !! (3 * 1 + 2))
    ∧ vs !! (3 * 1 + 2)
      = ints (range 16) !! (4 * skip_index 1 1 + skip_index 2 2).
Proof.
  apply (submatrix_minor 17 1 2 1 2 after_line_1 (ints (range 16)));
    [lia | lia | lia | lia | reflexivity | reflexivity | lia].
Defined.

(** ** Calls one after another *)

Lemma global_list_with_fresh x l ws s vs :
  global_list x s = Some vs → heap s !! l = None →
  global_list x (with_list l ws s) = Some vs.
Proof.
  intros (lx & Hg & Hx)%global_list_inv Hfree.
  rewrite (global_list_with_list x l lx) by congruence. done.
Qed.

(** X9: two calls in a row both end normally and return two different
    list objects; the second call leaves the list of the first as it
    was, so afterwards each list holds the selection for its own
    arguments.  With equal arguments the two lists are equal in content
    and still distinct objects. *)
Theorem submatrix_twice (fuel : nat) (r1 c1 r2 c2 : Z) (s : state)
    (nums : list value) :
  global_list "nums" s = Some nums → length nums < fuel →
  ∃ (l1 l2 : loc) (s1 s2 : state),
    outcome_of (submatrix fuel r1 c1 s) = Ok (VList l1) s1
    ∧ outcome_of (submatrix fuel r2 c2 s1) = Ok (VList l2) s2
    ∧ l1 ≠ l2
    ∧ heap s2 !! l1 = Some (selection nums r1 c1)
    ∧ heap s2 !! l2 = Some (selection nums r2 c2).
Proof.
  intros Hn Hfuel.
  destruct (run_submatrix_global fuel r1 c1 s nums Hn Hfuel)
    as (tr1 & Hrun1 & _ & Hfree1 & _).
  set (l1 := fresh (dom (heap s))) in *.
  set (s1 := with_list l1 (picked r1 c1 0 nums) s) in *.
  assert (global_list "nums" s1 = Some nums) as Hn1
    by by apply global_list_with_fresh.
  destruct (run_submatrix_global fuel r2 c2 s1 nums Hn1 Hfuel)
    as (tr2 & Hrun2 & _ & Hfree2 & _).
  set (l2 := fresh (dom (heap s1))) in *.
  assert (l1 ≠ l2) as Hne.
  { intros Heq. rewrite <-Heq in Hfree2. unfold s1 in Hfree2.
    by rewrite with_list_lookup in Hfree2. }
  exists l1, l2, s1, (with_list l2 (picked r2 c2 0 nums) s1).
  rewrite Hrun1, Hrun2.
  cbn [outcome_of snd]. split_and!; [done..| |].
  - rewrite with_list_lookup_ne by done. unfold s1.
    by rewrite with_list_lookup, picked_selection.
  - by rewrite with_list_lookup, picked_selection.
Qed.

Lemma submatrix_twice_witness :
  ∃ (l1 l2 : loc) (s1 s2 : state),
    outcome_of (submatrix 17 0 1 after_line_1) = Ok (VList l1) s1
    ∧ outcome_of (submatrix 17 0 1 s1) = Ok (VList l2) s2
    ∧ l1 ≠ l2
    ∧ heap s2 !! l1 = Some (selection (ints (range 16)) 0 1)
    ∧ heap s2 !! l2 = Some (selection (ints (range 16)) 0 1).
Proof.
  apply (submatrix_twice 17 0 1 0 1 after_line_1 (ints (range 16)));
    [reflexivity | vm_compute; lia].
Defined.

(** ** The body of the driving loop *)



(** X11: run while the module has no name [result], the round raises
    [NameError] for [result] before [submatrix] is called: no list is
    created and no state is changed. *)
Theorem driver_body_result_unbound (fuel : nat) (i j : Z) (s : state) :
  globals s !! "result" = None →
  driver_body fuel i j s = ([], Raise (NameError "result")).
Proof.
  intros Hg. unfold driver_body, load_global. rewrite !run_bind.
  cbn [get app]. by rewrite Hg.
Qed.

Lemma driver_body_result_unbound_witness :
  driver_body 17 0 0 after_line_1 = ([], Raise (NameError "result")).
Proof. apply driver_body_result_unbound. reflexivity. Defined.

(** ** The objects of the whole run *)

(** X12: when the script ends, the 16 entries of [result] are 16
    different list objects, and none of them is the object [nums] or
    [result] refers to: no two entries share storage, with each other or
    with the source. *)
Theorem entries_are_distinct_objects (fuel : nat) :
  16 < fuel →
  ∃ (s' : state) (refs : list loc),
    outcome_of (main fuel initial) = Ok tt s'
    ∧ global_list "result" s' = Some (VList <$> refs)
    ∧ length refs = 16
    ∧ NoDup refs
    ∧ (∀ l : loc, l ∈ refs →
         globals s' !! "nums" ≠ Some (VList l)
         ∧ globals s' !! "result" ≠ Some (VList l)).
Proof.
  intros Hfuel. rewrite (main_any_fuel fuel Hfuel).
  destruct main_17_final as (s' & Hout & _).
  exists s', (seq 2 16). split; [exact Hout|].
  revert Hout. vm_compute outcome_of. intros [= <-].
  split_and!.
  - by vm_compute.
  - reflexivity.
  - apply NoDup_seq.
  - intros l Hl. apply elem_of_seq in Hl.
    split; vm_compute; intros [= Heq]; lia.
Qed.

Lemma entries_are_distinct_objects_witness :
  ∃ (s' : state) (refs : list loc),
    outcome_of (main 17 initial) = Ok tt s'
    ∧ global_list "result" s' = Some (VList <$> refs)
    ∧ length refs = 16
    ∧ NoDup refs
    ∧ (∀ l : loc, l ∈ refs →
         globals s' !! "nums" ≠ Some (VList l)
         ∧ globals s' !! "result" ≠ Some (VList l)).
Proof. apply (entries_are_distinct_objects 17). lia. Defined.
